(** * Time Bank API: the ledger of [backend/main.py]

    A shallow embedding of the FastAPI handlers of [backend/main.py] over a
    model of the SQLite database [timebank.db] they talk to, and the
    properties of the transfer operation [create_transaction].

    Integers are Python [int]s and SQLite INTEGERs; they are modelled as [Z].
    The embedding covers the range in which SQLite's integer arithmetic is
    exact (64-bit values whose sums do not overflow). *)

From stdpp Require Import gmap strings list fin_maps.

#[local] Open Scope string_scope.
#[local] Open Scope Z_scope.

(** ** Models (the pydantic classes) *)

Module User.
Record t := mk {
  id : option Z;
  name : string;
  minutes_balance : Z
}.
End User.

Module Service.
Record t := mk {
  id : option Z;
  title : string;
  description : option string;
  provider_user_id : Z;
  duration_minutes : Z
}.
End Service.

Module Transaction.
Record t := mk {
  id : option Z;
  provider_user_id : Z;
  recipient_user_id : Z;
  minutes : Z;
  description : option string
}.
End Transaction.

(** ** Tables (the schema of [init_db])

    Every table is [id INTEGER PRIMARY KEY AUTOINCREMENT] plus its columns:
    a finite map from the row id to the other columns, together with the
    counter SQLite keeps in [sqlite_sequence] for an AUTOINCREMENT key. *)

Record users_row := {
  u_name : string;
  u_minutes_balance : Z
}.

Record services_row := {
  s_title : string;
  s_description : option string;
  s_provider_user_id : Z;
  s_duration_minutes : Z
}.

Record transactions_row := {
  t_provider_user_id : Z;
  t_recipient_user_id : Z;
  t_minutes : Z;
  t_description : option string
}.

Record table (A : Type) := {
  rows : gmap Z A;
  seq : Z
}.
Arguments rows {A} _.
Arguments seq {A} _.

Record database := {
  users : table users_row;
  services : table services_row;
  transactions : table transactions_row
}.

(** The largest row id present in a table (0 when it is empty). *)
Definition max_rowid {A} (m : gmap Z A) : Z :=
  foldr Z.max 0 ((map_to_list m).*1).

(** [INSERT] without an explicit id: with AUTOINCREMENT the new id is one
    more than the largest id the table has ever held. *)
Definition next_rowid {A} (t : table A) : Z :=
  Z.max (seq t) (max_rowid (rows t)) + 1.

Definition insert_row {A} (r : A) (t : table A) : table A :=
  {| rows := <[next_rowid t := r]> (rows t); seq := next_rowid t |}.

(** [UPDATE ... WHERE id=?]: changes the row when it exists, nothing
    otherwise. *)
Definition update_row {A} (f : A → A) (k : Z) (t : table A) : table A :=
  {| rows := alter f k (rows t); seq := seq t |}.

(** [DELETE ... WHERE id=?]. *)
Definition delete_row {A} (k : Z) (t : table A) : table A :=
  {| rows := delete k (rows t); seq := seq t |}.

Definition set_users (f : table users_row → table users_row) (d : database) : database :=
  {| users := f (users d); services := services d; transactions := transactions d |}.

Definition set_services (f : table services_row → table services_row) (d : database) : database :=
  {| users := users d; services := f (services d); transactions := transactions d |}.

Definition set_transactions (f : table transactions_row → table transactions_row) (d : database) : database :=
  {| users := users d; services := services d; transactions := f (transactions d) |}.

(** ** Connections, cursors and exceptions

    [get_db] opens a connection on the database file. Statements run on the
    connection's own view of the data (the sqlite3 module opens a transaction
    before the first INSERT, UPDATE or DELETE); [conn.commit()] writes the
    view to the file. A connection that is dropped without a commit leaves the
    file as it was.

    [faults] is the schedule of storage failures of the request: each
    statement sent to the engine consumes one entry, and fails with
    [OperationalError] when the entry is [true]. The empty schedule is a
    storage that never fails. *)

Inductive exn :=
  | HTTPException (status_code : Z) (detail : string)
  | OperationalError.

Record conn := {
  disk : database;
  view : database;
  lastrowid : option Z;
  faults : list bool
}.

Definition M (A : Type) : Type := conn → (exn + A) * conn.

#[global] Instance M_ret : MRet M := λ A a c, (inr a, c).

#[global] Instance M_bind : MBind M := λ A B k m c,
  match m c with
  | (inr a, c') => k a c'
  | (inl e, c') => (inl e, c')
  end.

Definition raise {A} (e : exn) : M A := λ c, (inl e, c).

(** One round trip to the storage engine. *)
Definition engine : M unit := λ c,
  match faults c with
  | true :: fs =>
      (inl OperationalError,
       {| disk := disk c; view := view c; lastrowid := lastrowid c; faults := fs |})
  | false :: fs =>
      (inr (), {| disk := disk c; view := view c; lastrowid := lastrowid c; faults := fs |})
  | [] => (inr (), c)
  end.

Definition read {A} (q : database → A) : M A := λ c, (inr (q (view c)), c).

Definition write (f : database → database) : M unit := λ c,
  (inr (), {| disk := disk c; view := f (view c); lastrowid := lastrowid c; faults := faults c |}).

Definition set_lastrowid (k : Z) : M unit := λ c,
  (inr (), {| disk := disk c; view := view c; lastrowid := Some k; faults := faults c |}).

Definition get_lastrowid : M (option Z) := λ c, (inr (lastrowid c), c).

(** [cur.execute("SELECT * FROM users WHERE id=?", (k,)).fetchone()] *)
Definition select_user (k : Z) : M (option users_row) :=
  engine ;; read (λ d, rows (users d) !! k).

(** [cur.execute("SELECT * FROM ...").fetchall()] *)
Definition select_all {A} (tbl : database → table A) : M (list (Z * A)) :=
  engine ;; read (λ d, map_to_list (rows (tbl d))).

(** [cur.execute("UPDATE users SET ... WHERE id=?", ...)] *)
Definition update_users (f : users_row → users_row) (k : Z) : M unit :=
  engine ;; write (set_users (update_row f k)).

(** [cur.execute("DELETE FROM users WHERE id=?", (k,))] *)
Definition delete_users (k : Z) : M unit :=
  engine ;; write (set_users (delete_row k)).

(** [cur.execute("INSERT INTO users (...) VALUES (...)", ...)]; the cursor
    remembers the id of the inserted row. *)
Definition insert_users (r : users_row) : M unit :=
  engine ;;
  k ← read (λ d, next_rowid (users d));
  write (set_users (insert_row r)) ;;
  set_lastrowid k.

Definition insert_services (r : services_row) : M unit :=
  engine ;;
  k ← read (λ d, next_rowid (services d));
  write (set_services (insert_row r)) ;;
  set_lastrowid k.

Definition insert_transactions (r : transactions_row) : M unit :=
  engine ;;
  k ← read (λ d, next_rowid (transactions d));
  write (set_transactions (insert_row r)) ;;
  set_lastrowid k.

(** [conn.commit()] *)
Definition commit : M unit := λ c,
  match engine c with
  | (inr _, c') =>
      (inr (), {| disk := view c'; view := view c'; lastrowid := lastrowid c'; faults := faults c' |})
  | (inl e, c') => (inl e, c')
  end.

(** ** The handlers *)

Definition user_of_row (kr : Z * users_row) : User.t :=
  User.mk (Some kr.1) (u_name kr.2) (u_minutes_balance kr.2).

Definition service_of_row (kr : Z * services_row) : Service.t :=
  Service.mk (Some kr.1) (s_title kr.2) (s_description kr.2)
    (s_provider_user_id kr.2) (s_duration_minutes kr.2).

(** [POST /users] *)
Definition create_user (user : User.t) : M User.t :=
  insert_users {| u_name := User.name user;
                  u_minutes_balance := User.minutes_balance user |} ;;
  commit ;;
  k ← get_lastrowid;
  mret (User.mk k (User.name user) (User.minutes_balance user)).

(** [GET /users] *)
Definition list_users : M (list User.t) :=
  us ← select_all users;
  mret (user_of_row <$> us).

(** [GET /users/{user_id}] *)
Definition get_user (user_id : Z) : M User.t :=
  user ← select_user user_id;
  match user with
  | None => raise (HTTPException 404 "User not found")
  | Some r => mret (user_of_row (user_id, r))
  end.

(** [PUT /users/{user_id}] *)
Definition update_user (user_id : Z) (user : User.t) : M User.t :=
  update_users (λ _, {| u_name := User.name user;
                        u_minutes_balance := User.minutes_balance user |}) user_id ;;
  commit ;;
  mret (User.mk (Some user_id) (User.name user) (User.minutes_balance user)).

(** [DELETE /users/{user_id}] *)
Definition delete_user (user_id : Z) : M string :=
  delete_users user_id ;;
  commit ;;
  mret "User deleted".

(** [POST /services] *)
Definition create_service (service : Service.t) : M Service.t :=
  insert_services {| s_title := Service.title service;
                     s_description := Service.description service;
                     s_provider_user_id := Service.provider_user_id service;
                     s_duration_minutes := Service.duration_minutes service |} ;;
  commit ;;
  k ← get_lastrowid;
  mret (Service.mk k (Service.title service) (Service.description service)
          (Service.provider_user_id service) (Service.duration_minutes service)).

(** [GET /services] *)
Definition list_services : M (list Service.t) :=
  ss ← select_all services;
  mret (service_of_row <$> ss).

Definition credit (m : Z) (r : users_row) : users_row :=
  {| u_name := u_name r; u_minutes_balance := u_minutes_balance r + m |}.

Definition debit (m : Z) (r : users_row) : users_row :=
  {| u_name := u_name r; u_minutes_balance := u_minutes_balance r - m |}.

Definition row_of_tx (tx : Transaction.t) : transactions_row :=
  {| t_provider_user_id := Transaction.provider_user_id tx;
     t_recipient_user_id := Transaction.recipient_user_id tx;
     t_minutes := Transaction.minutes tx;
     t_description := Transaction.description tx |}.

Definition with_id (k : option Z) (tx : Transaction.t) : Transaction.t :=
  Transaction.mk k (Transaction.provider_user_id tx) (Transaction.recipient_user_id tx)
    (Transaction.minutes tx) (Transaction.description tx).

(** [POST /transactions] *)
Definition create_transaction (tx : Transaction.t) : M Transaction.t :=
  provider ← select_user (Transaction.provider_user_id tx);
  recipient ← select_user (Transaction.recipient_user_id tx);
  match provider, recipient with
  | Some _, Some recipient =>
      if u_minutes_balance recipient <? Transaction.minutes tx then
        raise (HTTPException 400 "Recipient does not have enough minutes to pay")
      else
        update_users (credit (Transaction.minutes tx)) (Transaction.provider_user_id tx) ;;
        update_users (debit (Transaction.minutes tx)) (Transaction.recipient_user_id tx) ;;
        insert_transactions (row_of_tx tx) ;;
        commit ;;
        k ← get_lastrowid;
        mret (with_id k tx)
  | _, _ => raise (HTTPException 404 "Invalid provider or recipient")
  end.

(** ** Serving a request

    A request opens a fresh connection on the file, runs its handler, and
    answers with the handler's value, or with the error the exception maps to:
    an [HTTPException] gives its status code and detail, any other exception
    gives the generic 500 answer. What the next request finds is the file. *)

Inductive response (A : Type) :=
  | Ok (body : A)
  | Error (status_code : Z) (detail : string).
Arguments Ok {A} _.
Arguments Error {A} _ _.

Definition get_db (fs : list bool) (d : database) : conn :=
  {| disk := d; view := d; lastrowid := None; faults := fs |}.

Definition serve_with {A} (fs : list bool) (h : M A) (d : database) : response A * database :=
  match h (get_db fs d) with
  | (inr a, c) => (Ok a, disk c)
  | (inl (HTTPException s msg), c) => (Error s msg, disk c)
  | (inl OperationalError, c) => (Error 500 "Internal Server Error", disk c)
  end.

(** Serving on a storage that does not fail. *)
Definition serve {A} (h : M A) (d : database) : response A * database :=
  serve_with [] h d.

(** The requests of the API, and their effect on the file. *)
Inductive request :=
  | POST_users (user : User.t)
  | GET_users
  | GET_users_id (user_id : Z)
  | PUT_users_id (user_id : Z) (user : User.t)
  | DELETE_users_id (user_id : Z)
  | POST_services (service : Service.t)
  | GET_services
  | POST_transactions (tx : Transaction.t).

Definition file_after (fs : list bool) (rq : request) (d : database) : database :=
  match rq with
  | POST_users user => (serve_with fs (create_user user) d).2
  | GET_users => (serve_with fs list_users d).2
  | GET_users_id k => (serve_with fs (get_user k) d).2
  | PUT_users_id k user => (serve_with fs (update_user k user) d).2
  | DELETE_users_id k => (serve_with fs (delete_user k) d).2
  | POST_services service => (serve_with fs (create_service service) d).2
  | GET_services => (serve_with fs list_services d).2
  | POST_transactions tx => (serve_with fs (create_transaction tx) d).2
  end.

(** The database a transfer leaves when it goes through. *)
Definition transferred (tx : Transaction.t) (d : database) : database :=
  set_transactions (insert_row (row_of_tx tx))
    (set_users (update_row (debit (Transaction.minutes tx)) (Transaction.recipient_user_id tx))
      (set_users (update_row (credit (Transaction.minutes tx)) (Transaction.provider_user_id tx)) d)).

(** The balance of an account, when it exists. *)
Definition balance (d : database) (k : Z) : option Z :=
  u_minutes_balance <$> rows (users d) !! k.



(** ** Scenario of the two accounts Alice and Bob *)

Definition alice_bob : database :=
  {| users := {| rows := {[ 1 := {| u_name := "Alice"; u_minutes_balance := 0 |};
                            2 := {| u_name := "Bob"; u_minutes_balance := 100 |} ]};
                 seq := 2 |};
     services := {| rows := ∅; seq := 0 |};
     transactions := {| rows := ∅; seq := 0 |} |}.

Definition transfer (p r m : Z) : Transaction.t :=
  Transaction.mk None p r m None.

(** ** Histories and well-formed files

    SQLite keeps the counter of an AUTOINCREMENT key at least as large as
    every id in the table: a file the engine wrote satisfies [wf]. *)

Definition wf_table {A} (t : table A) : Prop :=
  max_rowid (rows t) ≤ seq t.

Definition wf (d : database) : Prop :=
  wf_table (users d) ∧ wf_table (services d) ∧ wf_table (transactions d).

(** The file after a sequence of requests, each with its own schedule of
    storage failures. *)
Definition file_after_all (h : list (list bool * request)) (d : database) : database :=
  foldl (λ d x, file_after x.1 x.2 d) d h.

(** The counters of [d'] are at least those of [d]. *)
Definition seq_le (d d' : database) : Prop :=
  seq (users d) ≤ seq (users d')
  ∧ seq (services d) ≤ seq (services d')
  ∧ seq (transactions d) ≤ seq (transactions d').

(** The tables [init_db] creates in a new file. *)
Definition empty_database : database :=
  {| users := {| rows := ∅; seq := 0 |};
     services := {| rows := ∅; seq := 0 |};
     transactions := {| rows := ∅; seq := 0 |} |}.

(** No account is overdrawn. *)
Definition no_overdraft (d : database) : Prop :=
  ∀ k r, rows (users d) !! k = Some r → 0 ≤ u_minutes_balance r.

(** Case analysis on the first entries of a schedule of failures: no handler
    sends more than six statements. *)
Ltac schedule fs :=
  destruct fs as [|[] [|[] [|[] [|[] [|[] [|[] ?]]]]]].

Example alice_bob_30 :
  (serve (create_transaction (transfer 1 2 30)) alice_bob).1
    = Ok (Transaction.mk (Some 1) 1 2 30 None)
  ∧ balance (serve (create_transaction (transfer 1 2 30)) alice_bob).2 1 = Some 30
  ∧ balance (serve (create_transaction (transfer 1 2 30)) alice_bob).2 2 = Some 70.
Proof. vm_compute. done. Qed.

Example alice_bob_200 :
  serve (create_transaction (transfer 1 2 200)) alice_bob
    = (Error 400 "Recipient does not have enough minutes to pay", alice_bob).
Proof. vm_compute. done. Qed.

Example alice_bob_99 :
  serve (create_transaction (transfer 99 2 10)) alice_bob
    = (Error 404 "Invalid provider or recipient", alice_bob).
Proof. vm_compute. done. Qed.

(** A storage failure at the second UPDATE: the connection has credited
    Alice in its own view, the file has not changed, and the request is
    answered with the generic error. *)
Example alice_bob_30_failure_at_debit :
  balance (view (create_transaction (transfer 1 2 30)
                   (get_db [false; false; false; true] alice_bob)).2) 1 = Some 30
  ∧ serve_with [false; false; false; true] (create_transaction (transfer 1 2 30)) alice_bob
    = (Error 500 "Internal Server Error", alice_bob).
Proof. vm_compute. done. Qed.

(** A storage failure at the commit. *)
Example alice_bob_30_failure_at_commit :
  serve_with [false; false; false; false; false; true]
    (create_transaction (transfer 1 2 30)) alice_bob
    = (Error 500 "Internal Server Error", alice_bob).
Proof. vm_compute. done. Qed.

(** ** Row ids *)

Section rowid.
Context {A : Type}.
Implicit Types (m : gmap Z A) (t : table A).

Lemma foldr_max_ge (l : list Z) (k : Z) : k ∈ l → k ≤ foldr Z.max 0 l.
Proof.
  induction l as [|x l IH]; intros Hk.
  - by apply elem_of_nil in Hk.
  - apply elem_of_cons in Hk as [->|Hk]; simpl; [lia|].
    specialize (IH Hk). lia.
Qed.

Lemma max_rowid_ge m k r : m !! k = Some r → k ≤ max_rowid m.
Proof.
  intros Hk. apply foldr_max_ge.
  apply list_elem_of_fmap. exists (k, r). split; [done|].
  by apply elem_of_map_to_list.
Qed.

Lemma next_rowid_fresh t : rows t !! next_rowid t = None.
Proof.
  destruct (rows t !! next_rowid t) as [r|] eqn:Hk; [|done].
  apply max_rowid_ge in Hk. unfold next_rowid in Hk. lia.
Qed.

End rowid.

(** ** What [create_transaction] computes *)

Lemma serve_create_transaction tx d :
  serve (create_transaction tx) d =
    match rows (users d) !! Transaction.provider_user_id tx,
          rows (users d) !! Transaction.recipient_user_id tx with
    | Some _, Some recipient =>
        if u_minutes_balance recipient <? Transaction.minutes tx then
          (Error 400 "Recipient does not have enough minutes to pay", d)
        else
          (Ok (with_id (Some (next_rowid (transactions d))) tx), transferred tx d)
    | _, _ => (Error 404 "Invalid provider or recipient", d)
    end.
Proof.
  unfold serve, serve_with, create_transaction, select_user, mbind, M_bind. simpl.
  destruct (rows (users d) !! Transaction.provider_user_id tx) as [p|];
    destruct (rows (users d) !! Transaction.recipient_user_id tx) as [r|]; try done.
  destruct (u_minutes_balance r <? Transaction.minutes tx); done.
Qed.

(** A storage failure leaves the file as it was; without one the request is
    served as on a storage that does not fail. *)
Lemma serve_with_create_transaction fs tx d :
  serve_with fs (create_transaction tx) d = serve (create_transaction tx) d
  ∨ serve_with fs (create_transaction tx) d = (Error 500 "Internal Server Error", d).
Proof.
  unfold serve, serve_with, create_transaction, select_user, mbind, M_bind.
  schedule fs; simpl; auto;
    destruct (rows (users d) !! Transaction.provider_user_id tx) as [p|];
    destruct (rows (users d) !! Transaction.recipient_user_id tx) as [r|]; simpl; auto;
    destruct (u_minutes_balance r <? Transaction.minutes tx); simpl; auto.
Qed.

(** ** Balances *)






Section total.
Implicit Types (m : gmap Z users_row).



End total.


(** ** The transfer between two accounts *)




(** C2: when both accounts exist, [create_transaction] fails with the 400
    error exactly when the recipient's balance is strictly below the minutes
    asked for (equal balance and minutes go through); and when it so fails the
    database is unchanged: no balance moves and no record is appended. *)
Theorem insufficient_funds_iff d tx rp rr :
  rows (users d) !! Transaction.provider_user_id tx = Some rp →
  rows (users d) !! Transaction.recipient_user_id tx = Some rr →
  ((serve (create_transaction tx) d).1
      = Error 400 "Recipient does not have enough minutes to pay"
    ↔ u_minutes_balance rr < Transaction.minutes tx)
  ∧ ((∃ msg, (serve (create_transaction tx) d).1 = Error 400 msg)
    ↔ u_minutes_balance rr < Transaction.minutes tx)
  ∧ (u_minutes_balance rr < Transaction.minutes tx →
     (serve (create_transaction tx) d).2 = d)
  ∧ (u_minutes_balance rr = Transaction.minutes tx →
     ∃ k, (serve (create_transaction tx) d).1 = Ok (with_id (Some k) tx)).
Proof.
  intros Hp Hr. rewrite serve_create_transaction, Hp, Hr.
  destruct (Z.ltb_spec (u_minutes_balance rr) (Transaction.minutes tx)) as [Hlt|Hge]; simpl.
  - split_and!; [done| |done|lia]. split; [done|]. intros _. by eexists.
  - split_and!.
    + split; [discriminate|lia].
    + split; [intros [msg Hmsg]; discriminate|lia].
    + lia.
    + intros _. by eexists.
Qed.

Lemma insufficient_funds_iff_alice_bob :
  ((serve (create_transaction (transfer 1 2 200)) alice_bob).1
      = Error 400 "Recipient does not have enough minutes to pay"
    ↔ 100 < 200)
  ∧ ((∃ msg, (serve (create_transaction (transfer 1 2 200)) alice_bob).1 = Error 400 msg)
    ↔ 100 < 200)
  ∧ (100 < 200 → (serve (create_transaction (transfer 1 2 200)) alice_bob).2 = alice_bob)
  ∧ (100 = 200 →
     ∃ k, (serve (create_transaction (transfer 1 2 200)) alice_bob).1
            = Ok (with_id (Some k) (transfer 1 2 200))).
Proof.
  apply (insufficient_funds_iff alice_bob (transfer 1 2 200)
           {| u_name := "Alice"; u_minutes_balance := 0 |}
           {| u_name := "Bob"; u_minutes_balance := 100 |}).
  - reflexivity.
  - reflexivity.
Defined.



(** ** Atomicity *)

Lemma serve_with_create_transaction_cases fs tx d :
  serve_with fs (create_transaction tx) d
    = (Ok (with_id (Some (next_rowid (transactions d))) tx), transferred tx d)
  ∨ (∃ s msg, serve_with fs (create_transaction tx) d = (Error s msg, d)).
Proof.
  destruct (serve_with_create_transaction fs tx d) as [-> | ->]; [|right; eauto].
  rewrite serve_create_transaction.
  destruct (rows (users d) !! Transaction.provider_user_id tx) as [rp|]; [|right; eauto].
  destruct (rows (users d) !! Transaction.recipient_user_id tx) as [rr|]; [|right; eauto].
  destruct (u_minutes_balance rr <? Transaction.minutes tx); [right|left]; eauto.
Qed.

(** C4: whatever the storage does (any schedule of failures, at any
    statement or at the commit), a call to [create_transaction] that succeeds
    leaves the database with the three effects together (provider credited,
    recipient debited, record appended) and nothing else changed, and a call
    that answers with an error, whichever it is, leaves the database exactly as
    it was. *)
Theorem transfer_all_or_nothing fs tx d :
  match (serve_with fs (create_transaction tx) d).1 with
  | Ok _ =>
      users (serve_with fs (create_transaction tx) d).2
        = update_row (debit (Transaction.minutes tx)) (Transaction.recipient_user_id tx)
            (update_row (credit (Transaction.minutes tx)) (Transaction.provider_user_id tx)
               (users d))
      ∧ services (serve_with fs (create_transaction tx) d).2 = services d
      ∧ transactions (serve_with fs (create_transaction tx) d).2
        = insert_row (row_of_tx tx) (transactions d)
  | Error _ _ => (serve_with fs (create_transaction tx) d).2 = d
  end.
Proof.
  destruct (serve_with_create_transaction_cases fs tx d) as [-> | (s & msg & ->)]; done.
Qed.

(** ** Repeating a transfer *)





(** ** No validation of the shape of a transfer *)



(** ** The transaction log *)

Lemma transactions_serve_with_create_transaction fs tx d :
  transactions (serve_with fs (create_transaction tx) d).2 = transactions d
  ∨ transactions (serve_with fs (create_transaction tx) d).2
      = insert_row (row_of_tx tx) (transactions d).
Proof.
  destruct (serve_with_create_transaction_cases fs tx d) as [-> | (s & msg & ->)]; auto.
Qed.

(** C7: the transaction log is append-only. Whatever the request (user
    CRUD, service CRUD or a transfer) and whatever the storage does, the log is
    afterwards either exactly what it was, or, for a transfer only, what it was
    plus the one record of that transfer under a new id; so every record the
    log held is still there, unchanged, under the same id. *)
Theorem transactions_append_only fs rq d :
  (transactions (file_after fs rq d) = transactions d
   ∨ ∃ tx, rq = POST_transactions tx
           ∧ rows (transactions d) !! next_rowid (transactions d) = None
           ∧ transactions (file_after fs rq d) = insert_row (row_of_tx tx) (transactions d))
  ∧ ∀ k row, rows (transactions d) !! k = Some row →
             rows (transactions (file_after fs rq d)) !! k = Some row.
Proof.
  assert (transactions (file_after fs rq d) = transactions d
   ∨ ∃ tx, rq = POST_transactions tx
           ∧ rows (transactions d) !! next_rowid (transactions d) = None
           ∧ transactions (file_after fs rq d) = insert_row (row_of_tx tx) (transactions d))
    as Hlog.
  { destruct rq as [user| |k|k user|k|service| |tx]; simpl.
    - left. unfold serve_with, create_user, insert_users, commit, mbind, M_bind.
      schedule fs; done.
    - left. unfold serve_with, list_users, select_all, mbind, M_bind.
      schedule fs; done.
    - left. unfold serve_with, get_user, select_user, mbind, M_bind.
      schedule fs; simpl; by destruct (rows (users d) !! k).
    - left. unfold serve_with, update_user, update_users, commit, mbind, M_bind.
      schedule fs; done.
    - left. unfold serve_with, delete_user, delete_users, commit, mbind, M_bind.
      schedule fs; done.
    - left. unfold serve_with, create_service, insert_services, commit, mbind, M_bind.
      schedule fs; done.
    - left. unfold serve_with, list_services, select_all, mbind, M_bind.
      schedule fs; done.
    - destruct (transactions_serve_with_create_transaction fs tx d) as [Heq|Heq]; [by left|].
      right. exists tx. split_and!; [done|apply next_rowid_fresh|done]. }
  split; [done|].
  intros k row Hk. destruct Hlog as [-> | (tx & _ & Hfresh & ->)]; [done|].
  simpl. rewrite lookup_insert_ne; [done|]. intros <-. congruence.
Qed.

(** ** A transfer to oneself *)



(** ** Conservation of minutes *)


(** ** Frame *)



(** * The other handlers *)

(** ** What each handler computes on a storage that does not fail *)






Lemma serve_list_users d :
  serve list_users d = (Ok (user_of_row <$> map_to_list (rows (users d))), d).
Proof. reflexivity. Qed.

Lemma serve_list_services d :
  serve list_services d = (Ok (service_of_row <$> map_to_list (rows (services d))), d).
Proof. reflexivity. Qed.

(** ** Storage failures *)

Lemma serve_with_create_user fs user d :
  serve_with fs (create_user user) d = serve (create_user user) d
  ∨ serve_with fs (create_user user) d = (Error 500 "Internal Server Error", d).
Proof.
  unfold serve, serve_with, create_user, insert_users, commit, mbind, M_bind.
  schedule fs; simpl; auto.
Qed.

Lemma serve_with_update_user fs k user d :
  serve_with fs (update_user k user) d = serve (update_user k user) d
  ∨ serve_with fs (update_user k user) d = (Error 500 "Internal Server Error", d).
Proof.
  unfold serve, serve_with, update_user, update_users, commit, mbind, M_bind.
  schedule fs; simpl; auto.
Qed.

Lemma serve_with_delete_user fs k d :
  serve_with fs (delete_user k) d = serve (delete_user k) d
  ∨ serve_with fs (delete_user k) d = (Error 500 "Internal Server Error", d).
Proof.
  unfold serve, serve_with, delete_user, delete_users, commit, mbind, M_bind.
  schedule fs; simpl; auto.
Qed.

Lemma serve_with_create_service fs service d :
  serve_with fs (create_service service) d = serve (create_service service) d
  ∨ serve_with fs (create_service service) d = (Error 500 "Internal Server Error", d).
Proof.
  unfold serve, serve_with, create_service, insert_services, commit, mbind, M_bind.
  schedule fs; simpl; auto.
Qed.

Lemma serve_with_get_user fs k d :
  (serve_with fs (get_user k) d).2 = d.
Proof.
  unfold serve_with, get_user, select_user, mbind, M_bind.
  schedule fs; simpl; by destruct (rows (users d) !! k).
Qed.

Lemma serve_with_list_users fs d :
  (serve_with fs list_users d).2 = d.
Proof.
  unfold serve_with, list_users, select_all, mbind, M_bind.
  schedule fs; done.
Qed.

Lemma serve_with_list_services fs d :
  (serve_with fs list_services d).2 = d.
Proof.
  unfold serve_with, list_services, select_all, mbind, M_bind.
  schedule fs; done.
Qed.

Lemma file_after_cases fs rq d :
  file_after fs rq d = d ∨ file_after fs rq d = file_after [] rq d.
Proof.
  destruct rq as [user| |k|k user|k|service| |tx]; simpl.
  - destruct (serve_with_create_user fs user d) as [-> | ->]; auto.
  - left. apply serve_with_list_users.
  - left. apply serve_with_get_user.
  - destruct (serve_with_update_user fs k user d) as [-> | ->]; auto.
  - destruct (serve_with_delete_user fs k d) as [-> | ->]; auto.
  - destruct (serve_with_create_service fs service d) as [-> | ->]; auto.
  - left. apply serve_with_list_services.
  - destruct (serve_with_create_transaction fs tx d) as [-> | ->]; auto.
Qed.

(** ** Accounts: create, read, update, delete *)

Lemma set_users_id d : set_users (λ t, t) d = d.
Proof. by destruct d. Qed.












(** ** Services *)


(** ** Listings *)

(** X8: [list_users] answers with exactly the accounts of the database, each
    once, under its id, and changes nothing. *)
Theorem list_users_exact d :
  ∃ l,
    serve list_users d = (Ok l, d)
    ∧ (∀ u, u ∈ l ↔ ∃ k r, rows (users d) !! k = Some r
                          ∧ u = User.mk (Some k) (u_name r) (u_minutes_balance r))
    ∧ length l = size (rows (users d))
    ∧ NoDup (User.id <$> l).
Proof.
  eexists. rewrite serve_list_users. split_and!.
  - reflexivity.
  - intros u. rewrite list_elem_of_fmap. split.
    + intros [[k r] [-> Hkr]]. exists k, r. by apply elem_of_map_to_list in Hkr.
    + intros (k & r & Hkr & ->). exists (k, r). by rewrite elem_of_map_to_list.
  - by rewrite length_fmap, length_map_to_list.
  - rewrite <- list_fmap_compose.
    rewrite (list_fmap_ext (User.id ∘ user_of_row) (Some ∘ fst) (map_to_list (rows (users d))))
      by done.
    rewrite list_fmap_compose. apply NoDup_fmap_2; [apply _|].
    apply NoDup_fst_map_to_list.
Qed.

(** X9: [list_services] answers with exactly the services of the database,
    each once, under its id, and changes nothing. *)
Theorem list_services_exact d :
  ∃ l,
    serve list_services d = (Ok l, d)
    ∧ (∀ s, s ∈ l ↔ ∃ k r, rows (services d) !! k = Some r
                          ∧ s = Service.mk (Some k) (s_title r) (s_description r)
                                  (s_provider_user_id r) (s_duration_minutes r))
    ∧ length l = size (rows (services d))
    ∧ NoDup (Service.id <$> l).
Proof.
  eexists. rewrite serve_list_services. split_and!.
  - reflexivity.
  - intros s. rewrite list_elem_of_fmap. split.
    + intros [[k r] [-> Hkr]]. exists k, r. by apply elem_of_map_to_list in Hkr.
    + intros (k & r & Hkr & ->). exists (k, r). by rewrite elem_of_map_to_list.
  - by rewrite length_fmap, length_map_to_list.
  - rewrite <- list_fmap_compose.
    rewrite (list_fmap_ext (Service.id ∘ service_of_row) (Some ∘ fst)
               (map_to_list (rows (services d)))) by done.
    rewrite list_fmap_compose. apply NoDup_fmap_2; [apply _|].
    apply NoDup_fst_map_to_list.
Qed.

(** ** Storage failures in the other handlers *)

(** X10: the writing handlers other than the transfer are all-or-nothing
    too. Whatever the storage does, [create_user], [update_user],
    [delete_user] and [create_service] either succeed and leave the database
    with their one write, or answer with an error and leave it as it was. *)
Theorem writes_all_or_nothing fs d user k service :
  match (serve_with fs (create_user user) d).1 with
  | Ok _ => (serve_with fs (create_user user) d).2
            = set_users (insert_row {| u_name := User.name user;
                                       u_minutes_balance := User.minutes_balance user |}) d
  | Error _ _ => (serve_with fs (create_user user) d).2 = d
  end
  ∧ match (serve_with fs (update_user k user) d).1 with
    | Ok _ => (serve_with fs (update_user k user) d).2
              = set_users (update_row (λ _, {| u_name := User.name user;
                                               u_minutes_balance := User.minutes_balance user |}) k) d
    | Error _ _ => (serve_with fs (update_user k user) d).2 = d
    end
  ∧ match (serve_with fs (delete_user k) d).1 with
    | Ok _ => (serve_with fs (delete_user k) d).2 = set_users (delete_row k) d
    | Error _ _ => (serve_with fs (delete_user k) d).2 = d
    end
  ∧ match (serve_with fs (create_service service) d).1 with
    | Ok _ => (serve_with fs (create_service service) d).2
              = set_services (insert_row {| s_title := Service.title service;
                                            s_description := Service.description service;
                                            s_provider_user_id := Service.provider_user_id service;
                                            s_duration_minutes := Service.duration_minutes service |}) d
    | Error _ _ => (serve_with fs (create_service service) d).2 = d
    end.
Proof.
  split_and!.
  - by destruct (serve_with_create_user fs user d) as [-> | ->].
  - by destruct (serve_with_update_user fs k user d) as [-> | ->].
  - by destruct (serve_with_delete_user fs k d) as [-> | ->].
  - by destruct (serve_with_create_service fs service d) as [-> | ->].
Qed.

(** X11: the reading handlers never write: whatever the storage does, and
    whether they answer with data, with the 404 error or with the generic
    error, [list_users], [get_user] and [list_services] leave the database as
    it was. *)
Theorem reads_never_write fs d k :
  (serve_with fs list_users d).2 = d
  ∧ (serve_with fs (get_user k) d).2 = d
  ∧ (serve_with fs list_services d).2 = d.
Proof.
  split_and!.
  - apply serve_with_list_users.
  - apply serve_with_get_user.
  - apply serve_with_list_services.
Qed.

Lemma file_after_reliable_transfer tx d :
  file_after [] (POST_transactions tx) d = d
  ∨ file_after [] (POST_transactions tx) d = transferred tx d.
Proof.
  simpl. fold (serve (create_transaction tx) d). rewrite serve_create_transaction.
  destruct (rows (users d) !! Transaction.provider_user_id tx) as [rp|]; [|by left].
  destruct (rows (users d) !! Transaction.recipient_user_id tx) as [rr|]; [|by left].
  destruct (u_minutes_balance rr <? Transaction.minutes tx); [by left|by right].
Qed.

(** X12: the services table is append-only. Whatever the request and whatever
    the storage does, it is afterwards either exactly what it was, or, for
    [create_service] only, what it was plus the one new service under a new
    id: no request changes or removes a stored service. *)
Theorem services_append_only fs rq d :
  (services (file_after fs rq d) = services d
   ∨ ∃ service, rq = POST_services service
       ∧ rows (services d) !! next_rowid (services d) = None
       ∧ rows (services (file_after fs rq d))
         = <[next_rowid (services d) :=
               {| s_title := Service.title service;
                  s_description := Service.description service;
                  s_provider_user_id := Service.provider_user_id service;
                  s_duration_minutes := Service.duration_minutes service |}]>
             (rows (services d)))
  ∧ ∀ k r, rows (services d) !! k = Some r →
           rows (services (file_after fs rq d)) !! k = Some r.
Proof.
  assert (services (file_after fs rq d) = services d
   ∨ ∃ service, rq = POST_services service
       ∧ rows (services d) !! next_rowid (services d) = None
       ∧ rows (services (file_after fs rq d))
         = <[next_rowid (services d) :=
               {| s_title := Service.title service;
                  s_description := Service.description service;
                  s_provider_user_id := Service.provider_user_id service;
                  s_duration_minutes := Service.duration_minutes service |}]>
             (rows (services d))) as Hcases.
  { destruct (file_after_cases fs rq d) as [-> | ->]; [by left|].
    destruct rq as [user| |k|k user|k|service| |tx]; try (left; reflexivity).
    - left. simpl. by rewrite serve_with_get_user.
    - right. exists service. split_and!; [done|apply next_rowid_fresh|done].
    - left. by destruct (file_after_reliable_transfer tx d) as [-> | ->]. }
  split; [done|].
  intros k r Hk. destruct Hcases as [-> | (service & _ & Hfresh & ->)]; [done|].
  rewrite lookup_insert_ne; [done|]. intros <-. congruence.
Qed.

(** ** Ids along a history of requests *)

Section table_ids.
Context {A : Type}.
Implicit Types (m : gmap Z A) (t : table A).

Lemma max_rowid_nonneg m : 0 ≤ max_rowid m.
Proof. unfold max_rowid. induction ((map_to_list m).*1); simpl; lia. Qed.

Lemma max_rowid_le m b :
  0 ≤ b → (∀ k r, m !! k = Some r → k ≤ b) → max_rowid m ≤ b.
Proof.
  intros Hb Hkeys. unfold max_rowid.
  assert (∀ k, k ∈ (map_to_list m).*1 → k ≤ b) as Hall.
  { intros k Hk. apply list_elem_of_fmap in Hk as [[k' r] [-> Hk]].
    apply elem_of_map_to_list in Hk. by apply (Hkeys k' r). }
  induction ((map_to_list m).*1) as [|x l IH]; simpl; [done|].
  assert (x ≤ b) by (apply Hall; left).
  assert (foldr Z.max 0 l ≤ b) by (apply IH; intros; apply Hall; by right).
  lia.
Qed.

Lemma wf_table_next_rowid t : wf_table t → next_rowid t = seq t + 1.
Proof. unfold wf_table, next_rowid. lia. Qed.

Lemma wf_table_insert_row r t : wf_table (insert_row r t).
Proof.
  unfold wf_table, insert_row. simpl.
  pose proof (max_rowid_nonneg (rows t)) as Hnn.
  apply max_rowid_le; [unfold next_rowid; lia|].
  intros k r' Hk. destruct (decide (k = next_rowid t)) as [->|Hne]; [done|].
  rewrite lookup_insert_ne in Hk by done.
  apply max_rowid_ge in Hk. unfold next_rowid. lia.
Qed.

Lemma seq_insert_row r t : seq t < seq (insert_row r t).
Proof. unfold insert_row, next_rowid. simpl. lia. Qed.

Lemma wf_table_update_row f k t : wf_table t → wf_table (update_row f k t).
Proof.
  unfold wf_table, update_row. simpl. intros Hwf.
  pose proof (max_rowid_nonneg (rows t)) as Hnn.
  apply max_rowid_le; [lia|].
  intros j r Hj.
  assert (is_Some (rows t !! j)) as [r' Hr'].
  { destruct (decide (j = k)) as [->|Hne].
    - rewrite lookup_alter_eq in Hj. by destruct (rows t !! k).
    - rewrite lookup_alter_ne in Hj by done. by eexists. }
  apply max_rowid_ge in Hr'. lia.
Qed.

Lemma wf_table_delete_row k t : wf_table t → wf_table (delete_row k t).
Proof.
  unfold wf_table, delete_row. simpl. intros Hwf.
  pose proof (max_rowid_nonneg (rows t)) as Hnn.
  apply max_rowid_le; [lia|].
  intros j r Hj. apply lookup_delete_Some in Hj as [_ Hj].
  apply max_rowid_ge in Hj. lia.
Qed.
End table_ids.

Lemma wf_file_after fs rq d : wf d → wf (file_after fs rq d) ∧ seq_le d (file_after fs rq d).
Proof.
  intros (Hu & Hs & Ht).
  assert (wf d ∧ seq_le d d) as Hsame by (unfold wf, seq_le; split_and!; done || lia).
  destruct (file_after_cases fs rq d) as [-> | ->]; [done|].
  destruct rq as [user| |k|k user|k|service| |tx].
  - unfold wf, seq_le. simpl. split_and!; try done; try lia.
    + apply wf_table_insert_row.
    + pose proof (seq_insert_row {| u_name := User.name user;
                                    u_minutes_balance := User.minutes_balance user |} (users d)).
      simpl in *. lia.
  - done.
  - simpl. by rewrite serve_with_get_user.
  - unfold wf, seq_le. simpl. split_and!; try done; try lia.
    by apply wf_table_update_row.
  - unfold wf, seq_le. simpl. split_and!; try done; try lia.
    by apply wf_table_delete_row.
  - unfold wf, seq_le. simpl. split_and!; try done; try lia.
    + apply wf_table_insert_row.
    + pose proof (seq_insert_row {| s_title := Service.title service;
                                    s_description := Service.description service;
                                    s_provider_user_id := Service.provider_user_id service;
                                    s_duration_minutes := Service.duration_minutes service |}
                    (services d)).
      simpl in *. lia.
  - done.
  - destruct (file_after_reliable_transfer tx d) as [-> | ->]; [done|].
    unfold wf, seq_le, transferred. simpl. split_and!; try done; try lia.
    + by apply wf_table_update_row, wf_table_update_row.
    + apply wf_table_insert_row.
    + pose proof (seq_insert_row (row_of_tx tx) (transactions d)). simpl in *. lia.
Qed.

Lemma wf_file_after_all h d : wf d → wf (file_after_all h d) ∧ seq_le d (file_after_all h d).
Proof.
  revert d. induction h as [|[fs rq] h IH]; intros d Hwf; simpl.
  - unfold seq_le. split_and!; done || lia.
  - destruct (wf_file_after fs rq d Hwf) as [Hwf1 (Hu1 & Hs1 & Ht1)].
    destruct (IH _ Hwf1) as [Hwf2 (Hu2 & Hs2 & Ht2)].
    split; [done|]. unfold seq_le. lia.
Qed.

(** X13: in the tables [init_db] creates the counter of every AUTOINCREMENT
    key is at least every id of its table, and every request keeps it so,
    whatever the storage does: the property holds after every history of
    requests on a new file. *)
Theorem wf_after_every_history h :
  wf (file_after_all h empty_database).
Proof.
  apply wf_file_after_all. unfold wf, wf_table. vm_compute. done.
Qed.



(** X15: the ids of the transaction log follow the order of the transfers. On
    a well-formed file, when a transfer succeeds and, after any further
    history of requests, another transfer succeeds, the id of the first record
    is smaller than the id of the second. *)
Theorem transaction_ids_increase d tx1 h tx2 t1 t2 :
  wf d →
  (serve (create_transaction tx1) d).1 = Ok t1 →
  (serve (create_transaction tx2)
     (file_after_all h (serve (create_transaction tx1) d).2)).1 = Ok t2 →
  ∃ k1 k2, Transaction.id t1 = Some k1 ∧ Transaction.id t2 = Some k2 ∧ k1 < k2.
Proof.
  intros Hwf H1 H2.
  destruct (wf_file_after [] (POST_transactions tx1) d Hwf) as [Hwf1 _].
  change (file_after [] (POST_transactions tx1) d)
    with (serve (create_transaction tx1) d).2 in Hwf1.
  destruct (wf_file_after_all h _ Hwf1) as [Hwf2 (_ & _ & Ht)].
  set (d1 := (serve (create_transaction tx1) d).2) in *.
  set (d2 := file_after_all h d1) in *.
  assert (t1 = with_id (Some (next_rowid (transactions d))) tx1
          ∧ d1 = transferred tx1 d) as [-> Hd1].
  { unfold d1. clear -H1. rewrite serve_create_transaction in *.
    destruct (rows (users d) !! Transaction.provider_user_id tx1); [|done].
    destruct (rows (users d) !! Transaction.recipient_user_id tx1); [|done].
    destruct (_ <? _); [done|]. simpl in *. by inversion H1. }
  assert (t2 = with_id (Some (next_rowid (transactions d2))) tx2) as ->.
  { clear -H2. rewrite serve_create_transaction in H2.
    destruct (rows (users d2) !! Transaction.provider_user_id tx2); [|done].
    destruct (rows (users d2) !! Transaction.recipient_user_id tx2); [|done].
    destruct (_ <? _); [done|]. simpl in *. by inversion H2. }
  eexists _, _. split_and!; [reflexivity|reflexivity|].
  destruct Hwf2 as (_ & _ & Hwft).
  rewrite (wf_table_next_rowid _ Hwft).
  rewrite Hd1 in Ht. simpl in Ht. lia.
Qed.

Lemma transaction_ids_increase_alice_bob :
  ∃ k1 k2,
    Transaction.id (Transaction.mk (Some 1) 1 2 30 None) = Some k1
    ∧ Transaction.id (Transaction.mk (Some 2) 2 1 10 None) = Some k2
    ∧ k1 < k2.
Proof.
  apply (transaction_ids_increase alice_bob (transfer 1 2 30)
           [([], POST_users (User.mk None "Carol" 10)); ([true], POST_transactions (transfer 1 2 5))]
           (transfer 2 1 10)).
  - unfold wf, wf_table. vm_compute. done.
  - vm_compute. reflexivity.
  - vm_compute. reflexivity.
Defined.

(** ** What a transfer does to the accounts *)

(** X16: a transfer touches balances only. Whatever the request and whatever
    the storage does, after [create_transaction] every id names an account
    exactly when it did before, under the same name: no account is created,
    deleted or renamed, and the counter of the users table does not move. *)
Theorem transfer_changes_balances_only fs tx d k :
  u_name <$> rows (users (serve_with fs (create_transaction tx) d).2) !! k
    = u_name <$> rows (users d) !! k
  ∧ seq (users (serve_with fs (create_transaction tx) d).2) = seq (users d).
Proof.
  destruct (serve_with_create_transaction_cases fs tx d) as [-> | (s & msg & ->)]; [|done].
  split; [|done]. unfold transferred. simpl.
  destruct (decide (k = Transaction.recipient_user_id tx)) as [->|Hr];
    [rewrite lookup_alter_eq|rewrite lookup_alter_ne by done];
    (destruct (decide (k = Transaction.provider_user_id tx)) as [->|Hp] ||
     destruct (decide (Transaction.recipient_user_id tx = Transaction.provider_user_id tx))
       as [->|Hp]);
    try rewrite lookup_alter_eq; try rewrite lookup_alter_ne by done;
    by destruct (rows (users d) !! _).
Qed.

(** X17: transfers of a non-negative amount never overdraw an account. When
    no balance is negative and minutes ≥ 0, no balance is negative after
    [create_transaction], whether it succeeds or fails and whatever the
    storage does. *)
Theorem transfer_keeps_no_overdraft fs tx d :
  no_overdraft d →
  0 ≤ Transaction.minutes tx →
  no_overdraft (serve_with fs (create_transaction tx) d).2.
Proof.
  intros Hd Hm.
  destruct (serve_with_create_transaction fs tx d) as [-> | ->]; [|done].
  rewrite serve_create_transaction.
  destruct (rows (users d) !! Transaction.provider_user_id tx) as [rp|] eqn:Hp; [|done].
  destruct (rows (users d) !! Transaction.recipient_user_id tx) as [rr|] eqn:Hr; [|done].
  destruct (Z.ltb_spec (u_minutes_balance rr) (Transaction.minutes tx)) as [|Hfunds]; [done|].
  simpl. intros k r. unfold transferred. simpl.
  pose proof (Hd _ _ Hp) as Hrp. pose proof (Hd _ _ Hr) as Hrr.
  destruct (decide (k = Transaction.recipient_user_id tx)) as [->|Hkr].
  - rewrite lookup_alter_eq.
    destruct (decide (Transaction.recipient_user_id tx = Transaction.provider_user_id tx))
      as [Heq|Hne].
    + rewrite Heq, lookup_alter_eq, Hp. intros [= <-]. simpl. lia.
    + rewrite lookup_alter_ne by done. rewrite Hr. intros [= <-]. simpl. lia.
  - rewrite lookup_alter_ne by done.
    destruct (decide (k = Transaction.provider_user_id tx)) as [->|Hkp].
    + rewrite lookup_alter_eq, Hp. intros [= <-]. simpl. lia.
    + rewrite lookup_alter_ne by done. apply Hd.
Qed.

Lemma transfer_keeps_no_overdraft_alice_bob :
  no_overdraft (serve_with [] (create_transaction (transfer 1 2 30)) alice_bob).2.
Proof.
  apply (transfer_keeps_no_overdraft [] (transfer 1 2 30) alice_bob).
  - intros k r. unfold alice_bob. simpl. intros Hk.
    apply lookup_insert_Some in Hk as [[_ <-]|[_ Hk]]; [simpl; lia|].
    apply lookup_singleton_Some in Hk as [_ <-]. simpl. lia.
  - simpl. lia.
Defined.

(** ** Minutes outside transfers *)



